(** * Vendure: admin-ui hooks, email handlers, collection filters,
      authentication and the job queue

    A shallow embedding of the TypeScript and GraphQL sources of the
    repository, one module per feature, followed by the properties proved
    about them. *)

From Stdlib Require Import ZArith Lia Ascii String.
From stdpp Require Import base option list strings gmap.

Set Implicit Arguments.
Set Warnings "-register-all".

(** ** JavaScript results

    A call either returns a value or throws. *)

Inductive JsError : Type :=
| TypeError (* property access on null or undefined *).

Inductive JsResult (A : Type) : Type :=
| Return (a : A)
| Throw (e : JsError).

Arguments Return {A} a.
Arguments Throw {A} e.

#[global] Instance JsResult_ret : MRet JsResult := fun A a => Return a.

#[global] Instance JsResult_bind : MBind JsResult := fun A B k m =>
  match m with
  | Return a => k a
  | Throw e => Throw e
  end.

(** Reading a property through a reference that may be [null] or
    [undefined] throws a [TypeError]. *)
Definition deref {A : Type} (reference : option A) : JsResult A :=
  match reference with
  | Some a => Return a
  | None => Throw TypeError
  end.

(** ** packages/admin-ui/src/lib/react/src/hooks/use-page-metadata.ts *)

Module PageMetadata.

Section hooks.

(** [BreadcrumbValue] is imported from [@vendure/admin-ui/core]. *)
Variable BreadcrumbValue : Type.

(** An RxJS subject, observed through the values it has emitted so far,
    oldest first. [next] emits one more value. *)
Definition Subject (A : Type) : Type := list A.

Definition next {A : Type} (s : Subject A) (v : A) : Subject A := (s ++ [v])%list.

(** The context object handed to hosted React components: the two
    subjects the hook uses are [title$] and [breadcrumb$]. *)
Record HostedReactComponentContext : Type := {
  title_ : Subject string;
  breadcrumb_ : Subject BreadcrumbValue
}.

(** What [useContext] hands to a component: [null], or the context object
    that the enclosing provider shares with it. *)
Inductive ContextReference : Type :=
| null
| provided.

(** Modelled from the spec: the default value of [HostedComponentContext],
    declared in [react-component-host.directive.ts], is [null]. *)
Definition HostedComponentContext_default : ContextReference := null.

(** [useContext(HostedComponentContext)]: the value of the nearest
    provider, or the default value when the component is rendered
    outside of any provider. *)
Definition useContext (insideProvider : bool) : ContextReference :=
  if insideProvider then provided else HostedComponentContext_default.

(** The object behind a reference, in a store that holds the context
    object of the provider. *)
Definition read (reference : ContextReference) (store : HostedReactComponentContext)
    : option HostedReactComponentContext :=
  match reference with
  | null => None
  | provided => Some store
  end.

(** The two closures returned by the hook. A call runs in the store that
    holds the provider's context object, and returns the store as the
    call leaves it. *)
Record PageMetadataFns : Type := {
  setBreadcrumb : BreadcrumbValue -> HostedReactComponentContext ->
                  JsResult HostedReactComponentContext;
  setTitle : string -> HostedReactComponentContext ->
             JsResult HostedReactComponentContext
}.

Definition usePageMetadata (insideProvider : bool) : PageMetadataFns :=
  let context := useContext insideProvider in
  {| setBreadcrumb := fun newValue store =>
       (* context.breadcrumb$.next(newValue) *)
       c ← deref (read context store);
       mret {| title_ := title_ c;
               breadcrumb_ := next (breadcrumb_ c) newValue |};
     setTitle := fun newTitle store =>
       (* context.title$.next(newTitle) *)
       c ← deref (read context store);
       mret {| title_ := next (title_ c) newTitle;
               breadcrumb_ := breadcrumb_ c |} |}.

End hooks.

Arguments title_ {BreadcrumbValue} _.
Arguments breadcrumb_ {BreadcrumbValue} _.
Arguments setTitle {BreadcrumbValue} _ _ _.
Arguments setBreadcrumb {BreadcrumbValue} _ _ _.
Arguments usePageMetadata {BreadcrumbValue} _.

End PageMetadata.

(** ** docs/docs/guides/core-concepts/email/index.mdx *)

Module Email.

Section handler.

(** Types of [@vendure/core] that the handler only passes along. *)
Variables RequestContext Injector OrderLine ShippingLine : Type.

Record Customer : Type := {
  emailAddress : string
}.

Record Order : Type := {
  code : string;
  customer : option Customer;
  lines : list OrderLine
}.

Record OrderStateTransitionEvent : Type := {
  ctx : RequestContext;
  fromState : string;
  toState : string;
  order : Order
}.

(** The two helpers of [@vendure/email-plugin] called by [loadData]. The
    first one rewrites, in place, the asset URLs of the order's lines: it
    is given by the lines it leaves in the order. The second one fetches
    the shipping lines of the order. *)
Variable transformOrderLineAssetUrls :
  RequestContext -> Order -> Injector -> list OrderLine.
Variable hydrateShippingLines :
  RequestContext -> Order -> Injector -> list ShippingLine.

(** What [loadData] returns, and the event once that data is attached to
    it ([event.data]). *)
Record LoadedData : Type := {
  shippingLines : list ShippingLine
}.

Record EventWithAsyncData : Type := {
  event : OrderStateTransitionEvent;
  data : LoadedData
}.

Record TemplateVars : Type := {
  vars_order : Order;
  vars_shippingLines : list ShippingLine
}.

(** A configured handler: one field per call of the builder chain. *)
Record EmailEventHandler : Type := {
  type : string;
  filterFns : list (OrderStateTransitionEvent -> bool);
  loadDataFn : OrderStateTransitionEvent -> Injector ->
               OrderStateTransitionEvent * LoadedData;
  setRecipientFn : EventWithAsyncData -> JsResult string;
  from : string;
  subject : string;
  setTemplateVarsFn : EventWithAsyncData -> TemplateVars
}.

Definition orderConfirmationHandler : EmailEventHandler :=
  {| (* new EmailEventListener('order-confirmation').on(OrderStateTransitionEvent) *)
     type := "order-confirmation";
     (* .filter(event => event.toState === 'PaymentSettled' && !!event.order.customer) *)
     filterFns :=
       [fun event =>
          String.eqb (toState event) "PaymentSettled"
          && bool_decide (is_Some (customer (order event)))];
     (* .loadData(async ({ event, injector }) => { ... }) *)
     loadDataFn := fun event injector =>
       let order' :=
         {| code := code (order event);
            customer := customer (order event);
            lines := transformOrderLineAssetUrls (ctx event) (order event) injector |} in
       let shippingLines := hydrateShippingLines (ctx event) order' injector in
       ({| ctx := ctx event; fromState := fromState event;
           toState := toState event; order := order' |},
        {| shippingLines := shippingLines |});
     (* .setRecipient(event => event.order.customer!.emailAddress) *)
     setRecipientFn := fun e =>
       c ← deref (customer (order (event e)));
       mret (emailAddress c);
     (* .setFrom('{{ fromAddress }}') *)
     from := "{{ fromAddress }}";
     (* .setSubject('Order confirmation for #{{ order.code }}') *)
     subject := "Order confirmation for #{{ order.code }}";
     (* .setTemplateVars(event => ({ order: event.order, shippingLines: event.data.shippingLines })) *)
     setTemplateVarsFn := fun e =>
       {| vars_order := order (event e);
          vars_shippingLines := shippingLines (data e) |} |}.

(** The order of an event as [loadData] leaves it. *)
Definition orderAfterLoadData (input : OrderStateTransitionEvent) (injector : Injector)
    : Order :=
  order (loadDataFn orderConfirmationHandler input injector).1.

(** The email a handler asks the plugin to send. *)
Record EmailDetails : Type := {
  email_type : string;
  recipient : string;
  email_from : string;
  email_subject : string;
  templateVars : TemplateVars
}.

Inductive Outcome : Type :=
| NoEmail
| Email (details : EmailDetails)
| Failed (e : JsError).

(** The stages a handler goes through for one event, in the order in which
    they ran. *)
Inductive Stage : Type :=
| FilterStage
| LoadDataStage
| SetRecipientStage
| SetTemplateVarsStage.

#[global] Instance Stage_eq_dec : EqDecision Stage.
Proof. solve_decision. Defined.

(** Modelled from the spec: [EmailEventHandler.handle] of the email plugin
    is not among the sources. The handler filters the event, loads the
    data, and then fixes the details of the email (recipient, template
    variables); an event rejected by a filter sends nothing. *)
Definition handle (h : EmailEventHandler) (input : OrderStateTransitionEvent)
    (injector : Injector) : list Stage * Outcome :=
  if forallb (fun f => f input) (filterFns h) then
    let '(ev, d) := loadDataFn h input injector in
    let e := {| event := ev; data := d |} in
    match setRecipientFn h e with
    | Throw err => ([FilterStage; LoadDataStage; SetRecipientStage], Failed err)
    | Return to =>
        ([FilterStage; LoadDataStage; SetRecipientStage; SetTemplateVarsStage],
         Email {| email_type := type h;
                  recipient := to;
                  email_from := from h;
                  email_subject := subject h;
                  templateVars := setTemplateVarsFn h e |})
    end
  else ([FilterStage], NoEmail).

(** An email goes out. *)
Definition sends (r : list Stage * Outcome) : Prop :=
  exists details, r.2 = Email details.

(** Stage [a] ran, and stage [b] ran later. *)
Definition ranBefore (a b : Stage) (stages : list Stage) : Prop :=
  exists i j, stages !! i = Some a /\ stages !! j = Some b /\ i < j.

End handler.

End Email.

(** ** docs/docs/guides/core-concepts/collections/index.mdx *)

Module Collections.

(** *** The TypeORM query builder, as far as [apply] uses it *)

Record ConnectionOptions : Type := {
  type : string
}.

Record Connection : Type := {
  options : ConnectionOptions
}.

Inductive WhereType : Type := WhereSimple | WhereAnd | WhereOr.

Record WhereClause : Type := {
  whereType : WhereType;
  condition : string
}.

Inductive ParamValue : Type :=
| PString (s : string)
| PNumber (n : Z)
| PBool (b : bool).

Section query_builder.

(** Everything else a [SelectQueryBuilder] holds: selection, joins,
    ordering, paging. *)
Variable Rest : Type.

Record SelectQueryBuilder : Type := {
  connection : Connection;
  wheres : list WhereClause;
  parameters : gmap string ParamValue;
  rest : Rest
}.

(** [qb.setParameters(parameters)]: every given key is bound, replacing a
    binding of the same name. *)
Definition setParameters (qb : SelectQueryBuilder)
    (params : list (string * ParamValue)) : SelectQueryBuilder :=
  {| connection := connection qb;
     wheres := wheres qb;
     parameters := foldl (fun m kv => <[kv.1 := kv.2]> m) (parameters qb) params;
     rest := rest qb |}.

(** [qb.andWhere(where, parameters)]: pushes an AND condition and binds
    the parameters. *)
Definition andWhere (qb : SelectQueryBuilder) (where_ : string)
    (params : list (string * ParamValue)) : SelectQueryBuilder :=
  setParameters
    {| connection := connection qb;
       wheres := (wheres qb ++ [{| whereType := WhereAnd; condition := where_ |}])%list;
       parameters := parameters qb;
       rest := rest qb |}
    params.

(** The arguments of the filter, as declared by its [args] definition. *)
Record SkuFilterArgs : Type := {
  sku : string
}.

(** [skuCollectionFilter.apply] *)
Definition apply (qb : SelectQueryBuilder) (args : SkuFilterArgs) : SelectQueryBuilder :=
  let LIKE :=
    if String.eqb (type (options (connection qb))) "postgres" then "ILIKE" else "LIKE" in
  andWhere qb ("productVariant.sku " +:+ LIKE +:+ " :sku")
    [("sku", PString ("%" +:+ sku args +:+ "%"))].

End query_builder.

Arguments connection {Rest} _.
Arguments wheres {Rest} _.
Arguments parameters {Rest} _.
Arguments rest {Rest} _.
Arguments andWhere {Rest} _ _ _.
Arguments apply {Rest} _ _.

End Collections.

(** ** The [login] and [authenticate] mutations *)

Module Auth.

(** *** Logging in *)

Record NativeAuthInput : Type := {
  username : string;
  password : string
}.

(** [input AuthenticationInput] is populated at run time with one field
    per configured strategy; [native] is the built-in one. *)
Inductive AuthenticationInput : Type :=
| native (input : NativeAuthInput)
| external (strategy : string) (data : string).

Record CurrentUser : Type := {
  id : string;
  identifier : string
}.

Record ErrorResult : Type := {
  errorCode : string;
  message : string
}.

Inductive AuthenticationResult : Type :=
| AuthCurrentUser (u : CurrentUser)
| AuthInvalidCredentialsError (e : ErrorResult).

Inductive NativeAuthenticationResult : Type :=
| NativeCurrentUser (u : CurrentUser)
| NativeInvalidCredentialsError (e : ErrorResult)
| NativeAuthStrategyError (e : ErrorResult).

Inductive TokenMethod : Type := cookie | bearer.

Inductive Duration : Type :=
| Years (n : nat)
| Milliseconds (ms : Z).

Record SessionCookie : Type := {
  token : string;
  maxAge : option Duration
}.

(** What a request leaves behind: the session cookie it set, or the token
    it returned in a header. *)
Record Response : Type := {
  sessionCookie : option SessionCookie;
  authTokenHeader : option string
}.

Definition noSession : Response :=
  {| sessionCookie := None; authTokenHeader := None |}.

Section resolvers.

(** How sessions are carried ([authOptions.tokenMethod]). *)
Variable tokenMethod : TokenMethod.

(** The configured authentication strategies: the user that the given
    credentials belong to, if they are correct. *)
Variable verify : AuthenticationInput -> option CurrentUser.

(** The token of the session that a successful authentication begins. *)
Variable createSession : CurrentUser -> string.

Variable invalidCredentialsError : ErrorResult.

(** Modelled from the spec: the resolvers are not among the sources.
    Given correct credentials a new authenticated session begins; with
    cookie-based sessions, [rememberMe] set to [true] sets the [maxAge] of
    the session cookie to one year. *)
Definition authenticate (input : AuthenticationInput) (rememberMe : option bool)
    : AuthenticationResult * Response :=
  match verify input with
  | None => (AuthInvalidCredentialsError invalidCredentialsError, noSession)
  | Some user =>
      let sessionToken := createSession user in
      (AuthCurrentUser user,
       match tokenMethod with
       | cookie =>
           {| sessionCookie :=
                Some {| token := sessionToken;
                        maxAge := match rememberMe with
                                  | Some true => Some (Years 1)
                                  | _ => None
                                  end |};
              authTokenHeader := None |}
       | bearer =>
           {| sessionCookie := None; authTokenHeader := Some sessionToken |}
       end)
  end.

(** Every [AuthenticationResult] is a [NativeAuthenticationResult]. *)
Definition asNativeResult (r : AuthenticationResult) : NativeAuthenticationResult :=
  match r with
  | AuthCurrentUser u => NativeCurrentUser u
  | AuthInvalidCredentialsError e => NativeInvalidCredentialsError e
  end.

(** Modelled from the spec: [login] is an alias for
    [authenticate({ native: { ... } })]. *)
Definition login (username password : string) (rememberMe : option bool)
    : NativeAuthenticationResult * Response :=
  let '(result, response) :=
    authenticate (native {| username := username; password := password |}) rememberMe in
  (asNativeResult result, response).

End resolvers.

End Auth.

(** ** docs/docs/guides/developer-guide/worker-job-queue/index.mdx *)

Module JobQueue.

Record Job : Type := {
  id : nat;
  queueName : string
}.

#[global] Instance Job_eq_dec : EqDecision Job.
Proof. solve_decision. Defined.

(** *** Configuration *)

Inductive JobQueueStrategy : Type :=
| InMemoryJobQueueStrategy
| SqlJobQueueStrategy
| BullMQJobQueueStrategy.

Record VendureConfig : Type := {
  (* jobQueueOptions.jobQueueStrategy *)
  jobQueueStrategy : option JobQueueStrategy
}.

(** A configuration in which no strategy is defined. *)
Definition noStrategyDefined : VendureConfig :=
  {| jobQueueStrategy := None |}.

(** A plugin changes the configuration it is added to. *)
Definition Plugin : Type := VendureConfig -> VendureConfig.

(** Modelled from the spec: the plugin is not among the sources; it
    configures Vendure to use the [SqlJobQueueStrategy]. *)
Definition DefaultJobQueuePlugin : Plugin :=
  fun _ => {| jobQueueStrategy := Some SqlJobQueueStrategy |}.

(** Modelled from the spec: the plugin is not among the sources; it
    configures the push-based strategy built on Redis. *)
Definition BullMQJobQueuePlugin : Plugin :=
  fun _ => {| jobQueueStrategy := Some BullMQJobQueueStrategy |}.

(** Modelled from the spec: a standard [@vendure/create] installation uses
    the [DefaultJobQueuePlugin]. *)
Definition standardInstallation : VendureConfig :=
  DefaultJobQueuePlugin noStrategyDefined.

(** Modelled from the spec: if no strategy is defined, Vendure uses the
    in-memory store. *)
Definition strategyInUse (config : VendureConfig) : JobQueueStrategy :=
  match jobQueueStrategy config with
  | Some s => s
  | None => InMemoryJobQueueStrategy
  end.

(** *** The queue *)

(** Where a strategy keeps the contents of the queues. *)
Inductive Store : Type :=
| ProcessMemory
| Database
| Redis.

(** How a job reaches the worker. *)
Inductive Acquisition : Type :=
| ReadFromMemory
| DatabasePoll
| PushDispatch.

(** Modelled from the spec: the strategies are not among the sources. The
    in-memory strategy keeps each queue in memory, the SQL strategy uses
    the database as a queue and polls it, the BullMQ strategy is
    push-based and built on Redis. *)
Definition storeOf (s : JobQueueStrategy) : Store :=
  match s with
  | InMemoryJobQueueStrategy => ProcessMemory
  | SqlJobQueueStrategy => Database
  | BullMQJobQueueStrategy => Redis
  end.

Definition acquisitionOf (s : JobQueueStrategy) : Acquisition :=
  match s with
  | InMemoryJobQueueStrategy => ReadFromMemory
  | SqlJobQueueStrategy => DatabasePoll
  | BullMQJobQueueStrategy => PushDispatch
  end.

(** The pending jobs held by each store, and the jobs that the worker has
    processed so far, oldest first, each with the way it was acquired. *)
Record State : Type := {
  memory : list Job;
  database : list Job;
  redis : list Job;
  processed : list (Job * Acquisition)
}.

Definition initial : State :=
  {| memory := []; database := []; redis := []; processed := [] |}.

Definition pending (s : JobQueueStrategy) (st : State) : list Job :=
  match storeOf s with
  | ProcessMemory => memory st
  | Database => database st
  | Redis => redis st
  end.

Definition setPending (s : JobQueueStrategy) (jobs : list Job) (st : State) : State :=
  match storeOf s with
  | ProcessMemory =>
      {| memory := jobs; database := database st; redis := redis st;
         processed := processed st |}
  | Database =>
      {| memory := memory st; database := jobs; redis := redis st;
         processed := processed st |}
  | Redis =>
      {| memory := memory st; database := database st; redis := jobs;
         processed := processed st |}
  end.

(** Modelled from the spec: what happens to a queue. The server adds a
    job; the worker picks up a job and processes it; the server stops and
    is started again. Which of the pending jobs the worker is handed is
    left open: [Pick k] names it by its position, so that what holds for
    every run holds whichever job a strategy hands out, the oldest one
    included. *)
Inductive Event : Type :=
| Add (j : Job)
| Pick (k : nat)
| StopAndRestart.

(** Modelled from the spec: the server adds jobs to the queue, and the
    worker picks them up and processes them one by one. When the server is
    stopped, what is held in memory is lost; the database and Redis are
    external and keep their contents. *)
Definition step (s : JobQueueStrategy) (st : State) (ev : Event) : State :=
  match ev with
  | Add j => setPending s (pending s st ++ [j])%list st
  | Pick k =>
      let jobs := pending s st in
      let i := k mod length jobs in
      match jobs !! i with
      | None => st
      | Some j =>
          let st' := setPending s (delete i jobs) st in
          {| memory := memory st'; database := database st'; redis := redis st';
             processed := (processed st ++ [(j, acquisitionOf s)])%list |}
      end
  | StopAndRestart =>
      {| memory := []; database := database st; redis := redis st;
         processed := processed st |}
  end.

Definition run (s : JobQueueStrategy) (evs : list Event) (st : State) : State :=
  foldl (step s) st evs.

(** *** Polling *)

(** Modelled from the spec: with the SQL strategy each queue queries the
    database every 200ms by default. Times are in milliseconds. *)
Definition pollInterval : nat := 200.

(** Modelled from the spec: a queue queries the database every 200ms. A
    queue that started polling at [started] queries the database at
    [started], [started + pollInterval], [started + 2 * pollInterval], ...;
    the time that a query itself takes is left out, as it is in the
    guide's count of queries per second. *)
Definition pollsAt (started ms : nat) : bool :=
  (started <=? ms) && ((ms - started) mod pollInterval =? 0).

(** Modelled from the spec: the queries of one queue during the [len]
    milliseconds from [from], on the schedule of [pollsAt]. *)
Definition queriesDuring (from len started : nat) : nat :=
  length (List.filter (pollsAt started) (seq from len)).

(** The multiples of the poll interval among the [len] numbers from [d]. *)
Definition multiples (d len : nat) : nat :=
  length (List.filter (fun x => x mod pollInterval =? 0) (seq d len)).

(** Modelled from the spec: the queries of all queues, given by their
    start times, during the second that begins at [from]. *)
Definition queriesPerSecond (queues : list nat) (from : nat) : nat :=
  sum_list (queriesDuring from 1000 <$> queues).

End JobQueue.

(** ** Sample data *)

Module Examples.

Import JobQueue.

Definition sendEmail : Job := {| id := 1; queueName := "send-email" |}.
Definition updateIndex : Job := {| id := 2; queueName := "update-search-index" |}.

(** Both stores hold the same two pending jobs; nothing is processed yet. *)
Definition twoPending : State :=
  {| memory := [sendEmail; updateIndex];
     database := [sendEmail; updateIndex];
     redis := [];
     processed := [] |}.

(** Ten queues that started polling at different times. *)
Definition tenQueues : list nat := [0; 7; 20; 33; 150; 199; 200; 401; 640; 999].

Definition settled : Email.OrderStateTransitionEvent unit string :=
  {| Email.ctx := tt;
     Email.fromState := "ArrangingPayment";
     Email.toState := "PaymentSettled";
     Email.order :=
       {| Email.code := "T3EPGJKTVZPBD6Z9";
          Email.customer := Some {| Email.emailAddress := "john.doe@email.com" |};
          Email.lines := ["laptop"] |} |}.

Definition johnDoe : Auth.CurrentUser :=
  {| Auth.id := "12345"; Auth.identifier := "john.doe@email.com" |}.

Definition checkPassword (input : Auth.AuthenticationInput) : option Auth.CurrentUser :=
  match input with
  | Auth.native n =>
      if String.eqb (Auth.username n) "john.doe@email.com"
         && String.eqb (Auth.password n) "secret"
      then Some johnDoe else None
  | Auth.external _ _ => None
  end.

End Examples.

(** ** Callers of the page metadata hook *)

Module PageMetadataCalls.

Import PageMetadata.

Section calls.

Variable BreadcrumbValue : Type.

(** One statement of a component that calls a setter of the hook. *)
Inductive Call : Type :=
| CallSetTitle (newTitle : string)
| CallSetBreadcrumb (newValue : BreadcrumbValue).

Definition call (fns : PageMetadataFns BreadcrumbValue) (c : Call)
    (store : HostedReactComponentContext BreadcrumbValue)
    : JsResult (HostedReactComponentContext BreadcrumbValue) :=
  match c with
  | CallSetTitle newTitle => setTitle fns newTitle store
  | CallSetBreadcrumb newValue => setBreadcrumb fns newValue store
  end.

(** Statements run one after the other; a call that throws ends the
    sequence. *)
Fixpoint calls (fns : PageMetadataFns BreadcrumbValue) (cs : list Call)
    (store : HostedReactComponentContext BreadcrumbValue)
    : JsResult (HostedReactComponentContext BreadcrumbValue) :=
  match cs with
  | [] => Return store
  | c :: rest => store' ← call fns c store; calls fns rest store'
  end.

Definition titles (cs : list Call) : list string :=
  omap (fun c => match c with CallSetTitle t => Some t | _ => None end) cs.

Definition breadcrumbs (cs : list Call) : list BreadcrumbValue :=
  omap (fun c => match c with CallSetBreadcrumb b => Some b | _ => None end) cs.

End calls.

Arguments CallSetTitle {BreadcrumbValue} _.
Arguments CallSetBreadcrumb {BreadcrumbValue} _.

(** The breadcrumb of the example in the documentation of the hook. *)
Record BreadcrumbLabelLinkPair : Type := {
  link : list string;
  label : string
}.

(** The effect of [MyComponent], the example in the documentation of the
    hook. *)
Definition MyComponent_effect : list (Call (list BreadcrumbLabelLinkPair)) :=
  [ CallSetTitle "My Page";
    CallSetBreadcrumb
      [ {| link := ["./parent"]; label := "Parent Page" |};
        {| link := ["./"]; label := "This Page" |} ] ].

End PageMetadataCalls.

(** ** Collection filters applied one after the other *)

Module CollectionFilterChain.

Import Collections.

(** The filters of a collection are applied to one query builder, each to
    the result of the one before. *)
Definition applyAll {Rest : Type} (qb : SelectQueryBuilder Rest) (filterArgs : list SkuFilterArgs)
    : SelectQueryBuilder Rest :=
  foldl apply qb filterArgs.

End CollectionFilterChain.

(** ** The variants that a query of collection filters selects *)

Module CollectionContents.

Import Collections CollectionFilterChain.

Record ProductVariant : Type := {
  id : nat;
  sku : string
}.

Definition lower (c : ascii) : ascii :=
  let n := nat_of_ascii c in
  if (65 <=? n) && (n <=? 90) then ascii_of_nat (n + 32) else c.

(** SQL's [LIKE]: in the pattern a percent sign stands for any run of
    characters and an underscore for any one character; every other
    character stands for itself, compared with [same]. *)
Fixpoint like (same : ascii -> ascii -> bool) (pattern s : list ascii) : bool :=
  match pattern with
  | [] => match s with [] => true | _ :: _ => false end
  | c :: pattern' =>
      if Ascii.eqb c "%"
      then (fix anywhere (s : list ascii) : bool :=
              like same pattern' s
              || match s with [] => false | _ :: s' => anywhere s' end) s
      else match s with
           | [] => false
           | c' :: s' => (Ascii.eqb c "_" || same c c') && like same pattern' s'
           end
  end.

(** Whether a variant satisfies one condition of a query, with the
    parameters of the query; [None] for a condition other than the two
    that the SKU filter writes, or when [:sku] is not bound to a string. *)
Definition conditionHolds (w : WhereClause) (parameters : gmap string ParamValue)
    (v : ProductVariant) : option bool :=
  match parameters !! "sku" with
  | Some (PString pattern) =>
      if String.eqb (condition w) "productVariant.sku LIKE :sku"
      then Some (like Ascii.eqb (list_ascii_of_string pattern)
                   (list_ascii_of_string (sku v)))
      else if String.eqb (condition w) "productVariant.sku ILIKE :sku"
      then Some (like (fun a b => Ascii.eqb (lower a) (lower b))
                   (list_ascii_of_string pattern) (list_ascii_of_string (sku v)))
      else None
  | _ => None
  end.

(** A variant is selected when it satisfies every condition. *)
Definition selects {Rest : Type} (qb : SelectQueryBuilder Rest) (v : ProductVariant)
    : option bool :=
  flags ← mapM (fun w => conditionHolds w (parameters qb) v) (wheres qb);
  Some (forallb (fun flag : bool => flag) flags).

(** [qb.getMany()] over the variants of a catalog. *)
Definition getMany {Rest : Type} (qb : SelectQueryBuilder Rest) (catalog : list ProductVariant)
    : option (list ProductVariant) :=
  flagged ← mapM (fun v => flag ← selects qb v; Some (v, flag)) catalog;
  Some ((List.filter snd flagged).*1).

(** A collection, with the SKU filters configured on it. *)
Inductive Collection : Type :=
| MkCollection (filters : list SkuFilterArgs) (inheritFilters : bool)
               (parent : option Collection).

(** Modelled from the spec: the service that evaluates a collection is not
    among the sources. A collection that inherits filters combines the
    filters of its parent with its own. *)
Fixpoint filtersInForce (c : Collection) : list SkuFilterArgs :=
  match c with
  | MkCollection filters inherit parent =>
      ((if inherit
        then match parent with
             | Some p => filtersInForce p
             | None => []
             end
        else []) ++ filters)%list
  end.

(** Modelled from the spec: the filters in force are applied, each with its
    [apply], to the query builder that selects the variants of the
    collection, and the query is run against the catalog. *)
Definition collectionQuery {Rest : Type} (base : SelectQueryBuilder Rest) (c : Collection)
    : SelectQueryBuilder Rest :=
  applyAll base (filtersInForce c).

Definition variantsOf {Rest : Type} (base : SelectQueryBuilder Rest)
    (catalog : list ProductVariant) (c : Collection) : option (list ProductVariant) :=
  getMany (collectionQuery base c) catalog.

(** *** A parent and a child that both filter by SKU *)

(** A query on the product variants, with no condition yet. *)
Definition allVariants : SelectQueryBuilder unit :=
  {| connection := {| options := {| type := "mysql" |} |};
     wheres := [];
     parameters := ∅;
     rest := tt |}.

Definition catalog : list ProductVariant :=
  [ {| id := 1; sku := "110" |};
    {| id := 2; sku := "220" |};
    {| id := 3; sku := "1122" |} ].

Definition parentCollection : Collection :=
  MkCollection [ {| Collections.sku := "11" |} ] false None.

Definition childCollection : Collection :=
  MkCollection [ {| Collections.sku := "22" |} ] true (Some parentCollection).

(** A query to which the SKU filter was applied before. *)
Definition filteredBySku11 : SelectQueryBuilder unit :=
  {| connection := {| options := {| type := "mysql" |} |};
     wheres := [ {| whereType := WhereAnd;
                    condition := "productVariant.sku LIKE :sku" |} ];
     parameters := {[ "sku" := PString "%11%" ]};
     rest := tt |}.

End CollectionContents.

(** ** The Express middleware of the API layer guide *)

Module Middleware.

Section chain.

Variables Request Response : Type.

(** What a handler did with a request: it called [next()], or it ended the
    response. *)
Inductive Control : Type :=
| Next
| Ended (res : Response).

(** A request handler, seen through what it wrote to the console and what
    it did with the request. *)
Definition RequestHandler : Type := Request -> list string * Control.

(** The handlers of a chain run in order, each one only if all before it
    called [next()]. *)
Fixpoint runChain (chain : list RequestHandler) (req : Request) : list string * Control :=
  match chain with
  | [] => ([], Next)
  | handler :: rest =>
      match handler req with
      | (console, Next) =>
          let '(console', control) := runChain rest req in
          ((console ++ console')%list, control)
      | (console, Ended res) => (console, Ended res)
      end
  end.

(** [myMiddleware]: logs a message whenever a request is received. *)
Definition myMiddleware : RequestHandler :=
  fun req => (["Request received!"], Next).

End chain.

Arguments Next {Response}.
Arguments myMiddleware {Request Response} _.

End Middleware.

(** * Properties *)

Unset Implicit Arguments.

(** ** The page metadata hook *)

Section page_metadata_facts.

Import PageMetadata.

Variable BreadcrumbValue : Type.

Lemma next_emits_last {A : Type} (s : Subject A) (v : A) :
  last (next s v) = Some v /\ length (next s v) = S (length s).
Proof.
  unfold next. split.
  - apply last_snoc.
  - rewrite length_app. simpl. lia.
Qed.

(** C10: inside a provider, [setTitle t] emits exactly [t] on [title$] and
    leaves [breadcrumb$] as it was, and [setBreadcrumb b] emits exactly
    [b] on [breadcrumb$] and leaves [title$] as it was; with no provider
    the context is null and both calls throw. *)
Theorem usePageMetadata_setters
    (c : HostedReactComponentContext BreadcrumbValue) (t : string) (b : BreadcrumbValue) :
  (exists c', setTitle (usePageMetadata true) t c = Return c'
              /\ title_ c' = (title_ c ++ [t])%list
              /\ breadcrumb_ c' = breadcrumb_ c)
  /\ (exists c', setBreadcrumb (usePageMetadata true) b c = Return c'
                 /\ breadcrumb_ c' = (breadcrumb_ c ++ [b])%list
                 /\ title_ c' = title_ c)
  /\ setTitle (usePageMetadata false) t c = Throw TypeError
  /\ setBreadcrumb (usePageMetadata false) b c = Throw TypeError.
Proof.
  repeat split.
  - eexists. repeat split; reflexivity.
  - eexists. repeat split; reflexivity.
Qed.

End page_metadata_facts.

(** ** The order confirmation handler *)

Section email_facts.

Import Email.

Variables RequestContext Injector OrderLine ShippingLine : Type.
Variable transformOrderLineAssetUrls :
  RequestContext -> Order OrderLine -> Injector -> list OrderLine.
Variable hydrateShippingLines :
  RequestContext -> Order OrderLine -> Injector -> list ShippingLine.

Local Abbreviation handler :=
  (orderConfirmationHandler transformOrderLineAssetUrls hydrateShippingLines).
Local Abbreviation loadedOrder :=
  (orderAfterLoadData transformOrderLineAssetUrls hydrateShippingLines).

Lemma filter_passes_iff (e : OrderStateTransitionEvent RequestContext OrderLine) :
  forallb (fun f => f e) (filterFns handler) = true
  <-> toState e = "PaymentSettled" /\ is_Some (customer (order e)).
Proof.
  simpl. rewrite andb_true_r, andb_true_iff, String.eqb_eq, bool_decide_eq_true.
  reflexivity.
Qed.

Lemma loadData_keeps_customer (e : OrderStateTransitionEvent RequestContext OrderLine)
    (inj : Injector) :
  customer (loadedOrder e inj) = customer (order e).
Proof. reflexivity. Qed.

Lemma handle_when_filter_passes
    (e : OrderStateTransitionEvent RequestContext OrderLine) (inj : Injector) (c : Customer) :
  toState e = "PaymentSettled" ->
  customer (order e) = Some c ->
  handle handler e inj =
    ([FilterStage; LoadDataStage; SetRecipientStage; SetTemplateVarsStage],
     Email {| email_type := "order-confirmation";
              recipient := emailAddress c;
              email_from := "{{ fromAddress }}";
              email_subject := "Order confirmation for #{{ order.code }}";
              templateVars :=
                {| vars_order := loadedOrder e inj;
                   vars_shippingLines :=
                     hydrateShippingLines (ctx e) (loadedOrder e inj) inj |} |}).
Proof.
  intros Hstate Hcust.
  unfold handle, orderAfterLoadData. simpl.
  rewrite Hstate, Hcust. reflexivity.
Qed.

Lemma handle_when_filter_rejects
    (e : OrderStateTransitionEvent RequestContext OrderLine) (inj : Injector) :
  ~ (toState e = "PaymentSettled" /\ is_Some (customer (order e))) ->
  handle handler e inj = ([FilterStage], NoEmail OrderLine ShippingLine).
Proof.
  intros Hno.
  pose proof (filter_passes_iff e) as Hiff.
  unfold handle.
  destruct (forallb (fun f => f e) (filterFns handler)); [| reflexivity].
  exfalso. apply Hno, Hiff. reflexivity.
Qed.

(** C5: the handler sends an email for an event exactly when the event's
    [toState] is ['PaymentSettled'] and the order has a customer. The email
    it then sends is of type ['order-confirmation'], goes to the email
    address of the order's customer, with the sender and the subject that
    the handler sets; [loadData] ran before the template variables were
    set: these are the order as [loadData] left it, with the asset URLs of
    its lines rewritten, and the shipping lines that [loadData] fetched
    for that order. For any other event the handler stops at its filter
    and sends nothing. *)
Theorem orderConfirmationHandler_sends_iff
    (e : OrderStateTransitionEvent RequestContext OrderLine) (inj : Injector) :
  let loaded :=
    {| code := code (order e);
       customer := customer (order e);
       lines := transformOrderLineAssetUrls (ctx e) (order e) inj |} in
  (sends (handle handler e inj)
   <-> toState e = "PaymentSettled" /\ is_Some (customer (order e)))
  /\ (forall c,
        toState e = "PaymentSettled" ->
        customer (order e) = Some c ->
        handle handler e inj
        = ([FilterStage; LoadDataStage; SetRecipientStage; SetTemplateVarsStage],
           Email {| email_type := "order-confirmation";
                    recipient := emailAddress c;
                    email_from := "{{ fromAddress }}";
                    email_subject := "Order confirmation for #{{ order.code }}";
                    templateVars :=
                      {| vars_order := loaded;
                         vars_shippingLines :=
                           hydrateShippingLines (ctx e) loaded inj |} |}))
  /\ (~ (toState e = "PaymentSettled" /\ is_Some (customer (order e))) ->
      handle handler e inj = ([FilterStage], NoEmail OrderLine ShippingLine))
  /\ (forall details,
        (handle handler e inj).2 = Email details ->
        email_type details = "order-confirmation"
        /\ email_from details = "{{ fromAddress }}"
        /\ email_subject details = "Order confirmation for #{{ order.code }}"
        /\ (exists c, customer (order e) = Some c /\ recipient details = emailAddress c)
        /\ templateVars details
           = {| vars_order := loaded;
                vars_shippingLines := hydrateShippingLines (ctx e) loaded inj |}
        /\ ranBefore LoadDataStage SetTemplateVarsStage (handle handler e inj).1).
Proof.
  intros loaded.
  assert (Hpass : forall c, toState e = "PaymentSettled" -> customer (order e) = Some c ->
            handle handler e inj
            = ([FilterStage; LoadDataStage; SetRecipientStage; SetTemplateVarsStage],
               Email {| email_type := "order-confirmation";
                        recipient := emailAddress c;
                        email_from := "{{ fromAddress }}";
                        email_subject := "Order confirmation for #{{ order.code }}";
                        templateVars :=
                          {| vars_order := loaded;
                             vars_shippingLines :=
                               hydrateShippingLines (ctx e) loaded inj |} |}))
    by (intros c Hstate Hc; exact (handle_when_filter_passes e inj c Hstate Hc)).
  pose proof (handle_when_filter_rejects e inj) as Hreject.
  split; [| split; [exact Hpass | split; [exact Hreject |]]].
  - destruct (decide (toState e = "PaymentSettled" /\ is_Some (customer (order e))))
      as [[Hstate [c Hc]] | Hno].
    + rewrite (Hpass c Hstate Hc).
      split; [intros _; split; [assumption | eauto] | intros _; eexists; reflexivity].
    + rewrite (Hreject Hno).
      split; [intros [d Hd]; discriminate | intros H; contradiction].
  - intros details Hd.
    destruct (decide (toState e = "PaymentSettled" /\ is_Some (customer (order e))))
      as [[Hstate [c Hc]] | Hno].
    + rewrite (Hpass c Hstate Hc) in Hd |- *. injection Hd as <-. simpl.
      repeat split.
      * exists c. split; [assumption | reflexivity].
      * exists 1, 3. repeat split. lia.
    + rewrite (Hreject Hno) in Hd. discriminate.
Qed.

End email_facts.

(** ** Collection filters *)

Section collection_filter_facts.

Import Collections.

Variable Rest : Type.

Lemma andWhere_one_parameter (qb : SelectQueryBuilder Rest) (w k : string) (v : ParamValue) :
  andWhere qb w [(k, v)] =
    {| connection := connection qb;
       wheres := (wheres qb ++ [{| whereType := WhereAnd; condition := w |}])%list;
       parameters := <[k := v]> (parameters qb);
       rest := rest qb |}.
Proof. reflexivity. Qed.

Lemma apply_condition (qb : SelectQueryBuilder Rest) (args : SkuFilterArgs) :
  exists w, apply qb args
            = andWhere qb w [("sku", PString ("%" +:+ sku args +:+ "%"))]
    /\ w = if decide (type (options (connection qb)) = "postgres")
           then "productVariant.sku ILIKE :sku"
           else "productVariant.sku LIKE :sku".
Proof.
  unfold apply. eexists. split; [reflexivity |].
  destruct (decide _) as [-> | Hne].
  - reflexivity.
  - apply String.eqb_neq in Hne. rewrite Hne. reflexivity.
Qed.

(** C6, amended: [apply] returns the query builder with exactly one more
    condition, pushed by [andWhere] at the end of its conditions:
    [productVariant.sku] matched with ILIKE on postgres and with LIKE
    otherwise against the parameter [:sku], which [apply] binds to
    [args.sku] between two percent signs, replacing any binding of [:sku]
    that the query already had. The connection, the conditions already
    there, every other parameter and the rest of the query are as they
    were. *)
Theorem skuCollectionFilter_apply_adds_one_condition
    (qb : SelectQueryBuilder Rest) (args : SkuFilterArgs) :
  wheres (apply qb args)
    = (wheres qb ++
       [{| whereType := WhereAnd;
           condition := if decide (type (options (connection qb)) = "postgres")
                        then "productVariant.sku ILIKE :sku"
                        else "productVariant.sku LIKE :sku" |}])%list
  /\ parameters (apply qb args) !! "sku" = Some (PString ("%" +:+ sku args +:+ "%"))
  /\ (forall k, k <> "sku" -> parameters (apply qb args) !! k = parameters qb !! k)
  /\ connection (apply qb args) = connection qb
  /\ rest (apply qb args) = rest qb.
Proof.
  destruct (apply_condition qb args) as (w & -> & ->).
  rewrite andWhere_one_parameter. simpl. repeat split.
  - apply lookup_insert_eq.
  - intros k Hk. apply lookup_insert_ne. congruence.
Qed.

End collection_filter_facts.

Section sku_binding_facts.

Import Collections CollectionFilterChain CollectionContents.

(** C6, as stated, fails: on a query that already binds [:sku], [apply]
    does not leave every other part of the query unchanged. The query
    holds a condition that matches against [:sku], bound to the pattern
    of 11; after [apply] with the SKU 22 that binding is replaced, so the
    condition that was there now matches against the pattern of 22. *)
Lemma apply_replaces_an_earlier_sku_binding :
  parameters filteredBySku11 !! "sku" = Some (PString "%11%")
  /\ wheres (apply filteredBySku11 {| Collections.sku := "22" |})
     = (wheres filteredBySku11
        ++ [{| whereType := WhereAnd; condition := "productVariant.sku LIKE :sku" |}])%list
  /\ parameters (apply filteredBySku11 {| Collections.sku := "22" |}) !! "sku"
     = Some (PString "%22%")
  /\ parameters (apply filteredBySku11 {| Collections.sku := "22" |})
     <> parameters filteredBySku11
  /\ getMany filteredBySku11 catalog
     = Some [ {| id := 1; sku := "110" |}; {| id := 3; sku := "1122" |} ]
  /\ getMany (apply filteredBySku11 {| Collections.sku := "22" |}) catalog
     = Some [ {| id := 2; sku := "220" |}; {| id := 3; sku := "1122" |} ].
Proof.
  assert (Hbefore : parameters filteredBySku11 !! "sku" = Some (PString "%11%"))
    by apply lookup_singleton_eq.
  assert (Hafter : parameters (apply filteredBySku11 {| Collections.sku := "22" |}) !! "sku"
                   = Some (PString "%22%"))
    by (vm_compute; reflexivity).
  split; [exact Hbefore |]. split; [reflexivity |]. split; [exact Hafter |].
  split; [intros Heq; rewrite Heq, Hbefore in Hafter; discriminate |].
  split; vm_compute; reflexivity.
Qed.

(** C8: the code breaks the subset. A parent collection filters by the SKU
    11 and its child, which inherits filters, by the SKU 22. The query of
    the child gets both conditions, but both match against the one
    parameter [:sku], which the filter of the child has bound last: the
    child contains every variant whose SKU contains 22, also the variant
    220, which its parent does not contain. *)
Theorem inheriting_child_with_sku_filter_is_not_a_subset :
  filtersInForce childCollection
    = [ {| Collections.sku := "11" |}; {| Collections.sku := "22" |} ]
  /\ wheres (collectionQuery allVariants childCollection)
     = [ {| whereType := WhereAnd; condition := "productVariant.sku LIKE :sku" |};
         {| whereType := WhereAnd; condition := "productVariant.sku LIKE :sku" |} ]
  /\ parameters (collectionQuery allVariants childCollection) !! "sku"
     = Some (PString "%22%")
  /\ variantsOf allVariants catalog parentCollection
     = Some [ {| id := 1; sku := "110" |}; {| id := 3; sku := "1122" |} ]
  /\ variantsOf allVariants catalog childCollection
     = Some [ {| id := 2; sku := "220" |}; {| id := 3; sku := "1122" |} ]
  /\ ~ ([ {| id := 2; sku := "220" |}; {| id := 3; sku := "1122" |} ]
        ⊆ [ {| id := 1; sku := "110" |}; {| id := 3; sku := "1122" |} ]).
Proof.
  split; [reflexivity |]. split; [reflexivity |].
  split.
  { vm_compute. reflexivity. }
  split; [vm_compute; reflexivity |]. split; [vm_compute; reflexivity |].
  intros Hsub. specialize (Hsub {| id := 2; sku := "220" |} (list_elem_of_here _ _)).
  rewrite !elem_of_cons in Hsub. destruct Hsub as [H | [H | H]]; try discriminate.
  apply elem_of_nil in H. exact H.
Qed.

End sku_binding_facts.

(** ** Authentication *)

Section auth_facts.

Import Auth.

Section login_facts.

Variable verify : AuthenticationInput -> option CurrentUser.
Variable createSession : CurrentUser -> string.
Variable invalidCredentialsError : ErrorResult.

Lemma login_unfold (tokenMethod : TokenMethod) (username password : string)
    (rememberMe : option bool) :
  login tokenMethod verify createSession invalidCredentialsError
    username password rememberMe
  = let r := authenticate tokenMethod verify createSession invalidCredentialsError
               (native {| username := username; password := password |}) rememberMe in
    (asNativeResult r.1, r.2).
Proof.
  unfold login.
  destruct (authenticate _ _ _ _ _ _) as [result response]. reflexivity.
Qed.


End login_facts.

End auth_facts.

(** ** The job queue *)

Section job_queue_facts.

Import JobQueue.

(** *** One step *)

Lemma pending_setPending (s : JobQueueStrategy) (jobs : list Job) (st : State) :
  pending s (setPending s jobs st) = jobs.
Proof. destruct s; reflexivity. Qed.

Lemma processed_setPending (s : JobQueueStrategy) (jobs : list Job) (st : State) :
  processed (setPending s jobs st) = processed st.
Proof. destruct s; reflexivity. Qed.

Lemma pending_step_Add (s : JobQueueStrategy) (st : State) (j : Job) :
  pending s (step s st (Add j)) = (pending s st ++ [j])%list
  /\ processed (step s st (Add j)) = processed st.
Proof. simpl. rewrite pending_setPending, processed_setPending. split; reflexivity. Qed.

Lemma step_Pick_Some (s : JobQueueStrategy) (st : State) (k : nat) (j : Job) :
  pending s st !! (k mod length (pending s st)) = Some j ->
  pending s (step s st (Pick k)) = delete (k mod length (pending s st)) (pending s st)
  /\ processed (step s st (Pick k)) = (processed st ++ [(j, acquisitionOf s)])%list.
Proof.
  intros Hj. unfold step. rewrite Hj.
  destruct s; simpl; split; reflexivity.
Qed.

Lemma step_Pick_None (s : JobQueueStrategy) (st : State) (k : nat) :
  pending s st = [] -> step s st (Pick k) = st.
Proof. intros Hnil. unfold step. rewrite Hnil. reflexivity. Qed.

(** With a job pending, a pick always hands one to the worker. *)
Lemma pick_is_Some (jobs : list Job) (k : nat) :
  jobs <> [] -> is_Some (jobs !! (k mod length jobs)).
Proof.
  intros Hne. apply lookup_lt_is_Some, Nat.mod_upper_bound.
  destruct jobs; [contradiction | simpl; lia].
Qed.

(** *** Runs *)

Lemma run_cons (s : JobQueueStrategy) (ev : Event) (evs : list Event) (st : State) :
  run s (ev :: evs) st = run s evs (step s st ev).
Proof. reflexivity. Qed.

(** Picks, at least as many as there are pending jobs, empty the queue:
    the worker processes each pending job once, whatever the picks are. *)
Lemma run_picks_drains (s : JobQueueStrategy) (picks : list nat) :
  forall st,
    length (pending s st) <= length picks ->
    pending s (run s (Pick <$> picks) st) = []
    /\ exists new,
         processed (run s (Pick <$> picks) st) = (processed st ++ new)%list
         /\ new.*1 ≡ₚ pending s st
         /\ Forall (fun p => p.2 = acquisitionOf s) new.
Proof.
  induction picks as [| k ks IH]; intros st Hlen.
  - simpl in Hlen. assert (Hnil : pending s st = []) by (apply nil_length_inv; lia).
    split; [exact Hnil |]. exists []. rewrite app_nil_r, Hnil. auto.
  - rewrite fmap_cons, run_cons.
    destruct (pending s st) as [| j0 jobs] eqn:Hpending.
    + rewrite (step_Pick_None s st k Hpending).
      destruct (IH st) as (Hnil & new & Hnew & Hperm & Hacq);
        [rewrite Hpending; simpl; lia |].
      split; [exact Hnil |]. exists new. rewrite Hpending in Hperm. auto.
    + rewrite <- Hpending in *.
      assert (Hne : pending s st <> []) by (rewrite Hpending; discriminate).
      destruct (pick_is_Some _ k Hne) as [j Hj].
      destruct (step_Pick_Some s st k j Hj) as [Hp Hd].
      assert (Hlen' : length (pending s (step s st (Pick k))) <= length ks).
      { rewrite Hp, length_delete by eauto. simpl in Hlen. lia. }
      destruct (IH _ Hlen') as (Hnil & new & Hnew & Hperm & Hacq).
      split; [exact Hnil |].
      exists ((j, acquisitionOf s) :: new). repeat split.
      * rewrite Hnew, Hd, <- app_assoc. reflexivity.
      * rewrite fmap_cons, Hperm, Hp. simpl.
        symmetry. apply delete_Permutation. exact Hj.
      * constructor; [reflexivity | exact Hacq].
Qed.

(** Every job that a strategy hands to the worker is acquired in the way
    of that strategy. *)
Lemma run_acquisitions (s : JobQueueStrategy) (evs : list Event) :
  forall st,
    exists new,
      processed (run s evs st) = (processed st ++ new)%list
      /\ Forall (fun p => p.2 = acquisitionOf s) new.
Proof.
  induction evs as [| ev evs IH]; intros st.
  - exists []. rewrite app_nil_r. auto.
  - rewrite run_cons. destruct (IH (step s st ev)) as (new & Hnew & Hacq).
    destruct ev as [j | k |].
    + exists new. rewrite Hnew, (proj2 (pending_step_Add s st j)). auto.
    + destruct (pending s st !! (k mod length (pending s st))) as [j |] eqn:Hj.
      * destruct (step_Pick_Some s st k j Hj) as [_ Hd].
        exists ((j, acquisitionOf s) :: new). split.
        -- rewrite Hnew, Hd, <- app_assoc. reflexivity.
        -- constructor; [reflexivity | exact Hacq].
      * exists new. split; [| exact Hacq].
        rewrite Hnew. unfold step. rewrite Hj. reflexivity.
    + exists new. auto.
Qed.

(** A job that is neither pending nor added again is not processed. *)
Lemma run_never_processes (s : JobQueueStrategy) (j : Job) (evs : list Event) :
  forall st,
    j ∉ pending s st ->
    Add j ∉ evs ->
    exists new,
      processed (run s evs st) = (processed st ++ new)%list /\ j ∉ new.*1.
Proof.
  induction evs as [| ev evs IH]; intros st Hpend Hadd.
  - exists []. rewrite app_nil_r. split; [reflexivity | apply not_elem_of_nil].
  - rewrite run_cons.
    apply not_elem_of_cons in Hadd. destruct Hadd as [Hev Hadd].
    destruct ev as [j' | k |].
    + destruct (pending_step_Add s st j') as [Hp Hd].
      destruct (IH (step s st (Add j'))) as (new & Hnew & Hj); [| exact Hadd |].
      * rewrite Hp. rewrite elem_of_app, list_elem_of_singleton.
        intros [? | ->]; [contradiction | apply Hev; reflexivity].
      * exists new. rewrite Hnew, Hd. auto.
    + destruct (pending s st !! (k mod length (pending s st))) as [j' |] eqn:Hj'.
      * destruct (step_Pick_Some s st k j' Hj') as [Hp Hd].
        destruct (IH (step s st (Pick k))) as (new & Hnew & Hj); [| exact Hadd |].
        -- rewrite Hp. intros Hin. apply Hpend.
           eapply elem_of_sublist; [exact Hin | apply sublist_delete].
        -- exists ((j', acquisitionOf s) :: new). split.
           ++ rewrite Hnew, Hd, <- app_assoc. reflexivity.
           ++ rewrite fmap_cons. apply not_elem_of_cons. split; [| exact Hj].
              simpl. intros ->. apply Hpend. eapply list_elem_of_lookup_2. exact Hj'.
      * assert (Hst : step s st (Pick k) = st) by (unfold step; rewrite Hj'; reflexivity).
        rewrite Hst. apply IH; assumption.
    + destruct (IH (step s st StopAndRestart)) as (new & Hnew & Hj); [| exact Hadd |].
      * destruct s; simpl in *; [apply not_elem_of_nil | exact Hpend | exact Hpend].
      * exists new. auto.
Qed.

(** *** Which strategy is in use *)

Lemma strategyInUse_no_strategy :
  strategyInUse noStrategyDefined = InMemoryJobQueueStrategy.
Proof. reflexivity. Qed.

Lemma strategyInUse_DefaultJobQueuePlugin (config : VendureConfig) :
  strategyInUse (DefaultJobQueuePlugin config) = SqlJobQueueStrategy.
Proof. reflexivity. Qed.

(** C1, as stated, fails: in a configuration that defines no strategy the
    in-memory strategy is in use; a job that the server adds never reaches
    the database, and the worker reads it from memory. *)
Lemma no_strategy_defined_reads_memory :
  let job := {| id := 1; queueName := "send-email" |} in
  let s := strategyInUse noStrategyDefined in
  jobQueueStrategy noStrategyDefined = None
  /\ s = InMemoryJobQueueStrategy
  /\ database (run s [Add job] initial) = []
  /\ processed (run s [Add job; Pick 0] initial) = [(job, ReadFromMemory)]
  /\ (job, DatabasePoll) ∉ processed (run s [Add job; Pick 0] initial).
Proof.
  repeat split. simpl.
  rewrite list_elem_of_singleton. discriminate.
Qed.

(** C1, amended: in a standard installation the [DefaultJobQueuePlugin]
    configures the [SqlJobQueueStrategy], and the worker obtains new jobs
    by polling the database: whatever happened before, a job that the
    server adds is stored in the database, and once the worker has polled
    at least as many times as there are jobs pending, the job has been
    handed to it by a database poll, as has every job before it. When no
    strategy is defined, the in-memory strategy is in use instead. *)
Theorem standard_installation_polls_database (evs : list Event) (j : Job) :
  strategyInUse noStrategyDefined = InMemoryJobQueueStrategy
  /\ strategyInUse standardInstallation = SqlJobQueueStrategy
  /\ acquisitionOf (strategyInUse standardInstallation) = DatabasePoll
  /\ let s := strategyInUse standardInstallation in
     let st := run s evs initial in
     Forall (fun p => p.2 = DatabasePoll) (processed st)
     /\ database (step s st (Add j)) = (database st ++ [j])%list
     /\ memory (step s st (Add j)) = memory st
     /\ forall picks,
          length (database (step s st (Add j))) <= length picks ->
          exists new,
            processed (run s (Pick <$> picks) (step s st (Add j)))
              = (processed st ++ new)%list
            /\ j ∈ new.*1
            /\ Forall (fun p => p.2 = DatabasePoll) new.
Proof.
  do 3 (split; [reflexivity |]).
  change (strategyInUse standardInstallation) with SqlJobQueueStrategy.
  cbv zeta. repeat split.
  - destruct (run_acquisitions SqlJobQueueStrategy evs initial) as (new & Hnew & Hacq).
    rewrite Hnew. exact Hacq.
  - intros picks Hlen.
    destruct (run_picks_drains SqlJobQueueStrategy picks
                (step SqlJobQueueStrategy (run SqlJobQueueStrategy evs initial) (Add j)) Hlen)
      as (_ & new & Hnew & Hperm & Hacq).
    exists new. split; [exact Hnew |]. split; [| exact Hacq].
    rewrite Hperm. simpl. apply elem_of_app. right. apply list_elem_of_singleton. reflexivity.
Qed.

(** *** Stopping the server *)

(** C4: with the [SqlJobQueueStrategy] a job that is pending when the
    server stops is still pending after the restart, and the worker, once
    it has polled at least as many times as jobs are pending, has
    processed it; with the
    in-memory strategy, which is in use when no strategy is defined, the
    queue is empty after the restart and the job is not processed by
    anything that happens later, unless it is added again. *)
Theorem pending_jobs_when_the_server_stops (st : State) (j : Job) :
  (j ∈ pending SqlJobQueueStrategy st ->
   let st' := step SqlJobQueueStrategy st StopAndRestart in
   pending SqlJobQueueStrategy st' = pending SqlJobQueueStrategy st
   /\ forall picks,
        length (pending SqlJobQueueStrategy st') <= length picks ->
        exists new,
          processed (run SqlJobQueueStrategy (Pick <$> picks) st')
            = (processed st ++ new)%list
          /\ j ∈ new.*1)
  /\ strategyInUse noStrategyDefined = InMemoryJobQueueStrategy
  /\ (j ∈ pending InMemoryJobQueueStrategy st ->
      let st' := step InMemoryJobQueueStrategy st StopAndRestart in
      pending InMemoryJobQueueStrategy st' = []
      /\ forall evs,
           Add j ∉ evs ->
           exists new,
             processed (run InMemoryJobQueueStrategy evs st')
               = (processed st ++ new)%list
             /\ j ∉ new.*1).
Proof.
  split; [| split; [reflexivity |]].
  - intros Hj st'. split; [reflexivity |].
    intros picks Hlen.
    destruct (run_picks_drains SqlJobQueueStrategy picks st' Hlen)
      as (_ & new & Hnew & Hperm & _).
    exists new. split; [exact Hnew |]. rewrite Hperm. exact Hj.
  - intros Hj st'. split; [reflexivity |].
    intros evs Hadd.
    apply (run_never_processes InMemoryJobQueueStrategy j evs st'); [| exact Hadd].
    apply not_elem_of_nil.
Qed.

End job_queue_facts.

(** *** Polling load *)

Section polling_facts.

Import JobQueue.

Lemma pollsAt_iff (started ms : nat) :
  pollsAt started ms = true <-> exists k, ms = started + k * pollInterval.
Proof.
  unfold pollsAt. rewrite andb_true_iff, Nat.leb_le, Nat.eqb_eq. split.
  - intros [Hle Hmod]. exists ((ms - started) / pollInterval).
    apply Nat.Div0.div_exact in Hmod. lia.
  - intros [k ->]. split; [lia |].
    replace (started + k * pollInterval - started) with (k * pollInterval) by lia.
    apply Nat.Div0.mod_mul.
Qed.

Lemma queriesDuring_multiples (started len : nat) :
  forall from, started <= from ->
    queriesDuring from len started = multiples (from - started) len.
Proof.
  unfold queriesDuring, multiples.
  induction len as [| len IH]; intros from Hle; [reflexivity |].
  cbn [seq List.filter].
  assert (Hhead : pollsAt started from = ((from - started) mod pollInterval =? 0)).
  { unfold pollsAt. apply Nat.leb_le in Hle. rewrite Hle. reflexivity. }
  rewrite Hhead.
  specialize (IH (S from) ltac:(lia)).
  replace (S from - started) with (S (from - started)) in IH by lia.
  destruct ((from - started) mod pollInterval =? 0); cbn [length]; rewrite IH; reflexivity.
Qed.

Lemma multiples_slide (d len : nat) :
  multiples d len + (if (d + len) mod pollInterval =? 0 then 1 else 0)
  = (if d mod pollInterval =? 0 then 1 else 0) + multiples (S d) len.
Proof.
  unfold multiples.
  assert (Hl : seq d (S len) = (seq d len ++ [d + len])%list) by apply seq_S.
  assert (Hr : seq d (S len) = d :: seq (S d) len) by reflexivity.
  assert (Hcount : length (List.filter (fun x => x mod pollInterval =? 0) (seq d len ++ [d + len]))
                   = length (List.filter (fun x => x mod pollInterval =? 0) (d :: seq (S d) len)))
    by (rewrite <- Hl, <- Hr; reflexivity).
  rewrite List.filter_app, length_app in Hcount.
  cbn [List.filter] in Hcount.
  destruct ((d + len) mod pollInterval =? 0), (d mod pollInterval =? 0);
    cbn [length] in Hcount; lia.
Qed.

(** Any [pollInterval] consecutive milliseconds hold exactly one poll. *)
Lemma multiples_one_period (d : nat) : multiples d pollInterval = 1.
Proof.
  induction d as [| d IH]; [vm_compute; reflexivity |].
  pose proof (multiples_slide d pollInterval) as Hslide.
  replace ((d + pollInterval) mod pollInterval) with (d mod pollInterval) in Hslide.
  - destruct (d mod pollInterval =? 0); lia.
  - replace (d + pollInterval) with (d + 1 * pollInterval) by lia.
    symmetry. apply Nat.Div0.mod_add.
Qed.

Lemma multiples_app (d a b : nat) :
  multiples d (a + b) = multiples d a + multiples (d + a) b.
Proof.
  unfold multiples. rewrite seq_app, List.filter_app, length_app. reflexivity.
Qed.

Lemma multiples_periods (n : nat) :
  forall d, multiples d (n * pollInterval) = n.
Proof.
  induction n as [| n IH]; intros d; [reflexivity |].
  replace (S n * pollInterval) with (pollInterval + n * pollInterval) by lia.
  rewrite multiples_app, multiples_one_period, IH. reflexivity.
Qed.

Lemma queriesDuring_one_second (started from : nat) :
  started <= from -> queriesDuring from 1000 started = 5.
Proof.
  intros Hle. rewrite (queriesDuring_multiples started 1000 from Hle).
  exact (multiples_periods 5 (from - started)).
Qed.

(** C2: with the SQL strategy every queue queries the database once every
    200ms, so in any second [n] polling queues make [5 * n] queries; ten
    queues make 50 queries per second. *)
Theorem sql_polling_load (queues : list nat) (from : nat) :
  Forall (fun started => started <= from) queues ->
  pollInterval = 200
  /\ (forall started ms,
        pollsAt started ms = true <-> exists k, ms = started + k * 200)
  /\ queriesPerSecond queues from = 5 * length queues
  /\ (length queues = 10 -> queriesPerSecond queues from = 50).
Proof.
  intros Hstarted.
  assert (Hload : queriesPerSecond queues from = 5 * length queues).
  { unfold queriesPerSecond.
    induction Hstarted as [| started queues Hle _ IH]; [reflexivity |].
    rewrite fmap_cons. cbn [sum_list sum_list_with length].
    change (sum_list_with Datatypes.id (queriesDuring from 1000 <$> queues))
      with (sum_list (queriesDuring from 1000 <$> queues)).
    rewrite IH, (queriesDuring_one_second started from Hle).
    unfold Datatypes.id. lia. }
  split; [reflexivity |]. split; [apply pollsAt_iff |].
  split; [exact Hload |]. intros Hten. rewrite Hload, Hten. reflexivity.
Qed.

End polling_facts.

(** ** The properties at concrete inputs *)

Section examples.

Import JobQueue Examples.

(** After an earlier job, [sendEmail] is added and the worker polls three
    times: it is handed [sendEmail] by a database poll. *)
Lemma standard_installation_polls_database_witness :
  exists new,
    processed (run SqlJobQueueStrategy [Pick 5; Pick 3; Pick 8]
                 (step SqlJobQueueStrategy
                    (run SqlJobQueueStrategy [Add updateIndex] initial) (Add sendEmail)))
      = new
    /\ sendEmail ∈ new.*1
    /\ Forall (fun p => p.2 = DatabasePoll) new.
Proof.
  destruct (standard_installation_polls_database [Add updateIndex] sendEmail)
    as (_ & _ & _ & _ & _ & _ & Hpolls).
  exact (Hpolls [5; 3; 8] ltac:(simpl; lia)).
Defined.

(** Ten queues, all polling by the time 1000: 50 queries in the second
    that follows. *)
Lemma sql_polling_load_witness :
  Forall (fun started => started <= 1000) tenQueues
  /\ queriesPerSecond tenQueues 1000 = 50.
Proof.
  assert (Hstarted : Forall (fun started => started <= 1000) tenQueues)
    by (unfold tenQueues; repeat (constructor; [lia |]); constructor).
  split; [exact Hstarted |].
  apply (sql_polling_load tenQueues 1000 Hstarted). reflexivity.
Defined.

(** [sendEmail] is pending when the server stops: it is processed after the
    restart with the SQL strategy, and not with the in-memory strategy. *)
Lemma pending_jobs_when_the_server_stops_witness :
  (exists new,
     processed (run SqlJobQueueStrategy [Pick 1; Pick 0]
                  (step SqlJobQueueStrategy twoPending StopAndRestart)) = new
     /\ sendEmail ∈ new.*1)
  /\ (exists new,
        processed (run InMemoryJobQueueStrategy [Add updateIndex; Pick 0; Pick 0]
                     (step InMemoryJobQueueStrategy twoPending StopAndRestart)) = new
        /\ sendEmail ∉ new.*1).
Proof.
  destruct (pending_jobs_when_the_server_stops twoPending sendEmail) as (Hsql & _ & Hmem).
  split.
  - apply (proj2 (Hsql ltac:(apply list_elem_of_here)) [1; 0] ltac:(simpl; lia)).
  - apply (proj2 (Hmem ltac:(apply list_elem_of_here))).
    rewrite !not_elem_of_cons. repeat split; try discriminate. apply not_elem_of_nil.
Defined.

(** The order of [settled] has a customer and its payment is settled: the
    confirmation is sent. *)
Lemma orderConfirmationHandler_sends_iff_witness :
  Email.handle
    (Email.orderConfirmationHandler (fun _ o _ => Email.lines o) (fun _ _ _ => ["express"]))
    settled tt
  = ([Email.FilterStage; Email.LoadDataStage; Email.SetRecipientStage;
      Email.SetTemplateVarsStage],
     Email.Email
       {| Email.email_type := "order-confirmation";
          Email.recipient := "john.doe@email.com";
          Email.email_from := "{{ fromAddress }}";
          Email.email_subject := "Order confirmation for #{{ order.code }}";
          Email.templateVars :=
            {| Email.vars_order := Email.order settled;
               Email.vars_shippingLines := ["express"] |} |}).
Proof.
  exact (proj1 (proj2 (orderConfirmationHandler_sends_iff unit unit string string
                         (fun _ o _ => Email.lines o) (fun _ _ _ => ["express"])
                         settled tt))
           {| Email.emailAddress := "john.doe@email.com" |} eq_refl eq_refl).
Defined.


End examples.

(** * Further properties *)

(** ** Sequences of setter calls *)

Section page_metadata_call_facts.

Import PageMetadata PageMetadataCalls.

Variable BreadcrumbValue : Type.

Lemma call_inside_provider (c : Call BreadcrumbValue)
    (store : HostedReactComponentContext BreadcrumbValue) :
  exists store',
    call (usePageMetadata true) c store = Return store'
    /\ title_ store' = (title_ store ++ titles [c])%list
    /\ breadcrumb_ store' = (breadcrumb_ store ++ breadcrumbs [c])%list.
Proof.
  destruct c as [t | b]; eexists; (split; [reflexivity |]); simpl;
    rewrite ?app_nil_r; split; reflexivity.
Qed.

Lemma titles_cons (c : Call BreadcrumbValue) (cs : list (Call BreadcrumbValue)) :
  titles (c :: cs) = (titles [c] ++ titles cs)%list
  /\ breadcrumbs (c :: cs) = (breadcrumbs [c] ++ breadcrumbs cs)%list.
Proof. destruct c; split; reflexivity. Qed.

(** X1: inside a provider no sequence of [setTitle] and [setBreadcrumb]
    calls throws; the titles are emitted on [title$] in the order of the
    calls, after what was emitted before, and likewise the breadcrumbs on
    [breadcrumb$]. Outside of a provider the first call of a sequence
    throws. *)
Theorem setter_calls_emit_in_call_order (cs : list (Call BreadcrumbValue)) :
  forall store : HostedReactComponentContext BreadcrumbValue,
    (exists store',
       calls (usePageMetadata true) cs store = Return store'
       /\ title_ store' = (title_ store ++ titles cs)%list
       /\ breadcrumb_ store' = (breadcrumb_ store ++ breadcrumbs cs)%list)
    /\ calls (usePageMetadata false) cs store
       = match cs with
         | [] => Return store
         | _ :: _ => Throw TypeError
         end.
Proof.
  induction cs as [| c cs IH]; intros store.
  - split; [| reflexivity]. exists store. rewrite !app_nil_r. auto.
  - split.
    + destruct (call_inside_provider c store) as (store1 & Hcall & Ht & Hb).
      destruct (IH store1) as [(store' & Hcalls & Ht' & Hb') _].
      exists store'. split; [cbn [calls]; rewrite Hcall; exact Hcalls |].
      destruct (titles_cons c cs) as [-> ->].
      rewrite Ht', Hb', Ht, Hb, <- !app_assoc. auto.
    + destruct c; reflexivity.
Qed.

End page_metadata_call_facts.

(** ** The recipient of the order confirmation *)

Section recipient_facts.

Import Email.

Variables RequestContext Injector OrderLine ShippingLine : Type.
Variable transformOrderLineAssetUrls :
  RequestContext -> Order OrderLine -> Injector -> list OrderLine.
Variable hydrateShippingLines :
  RequestContext -> Order OrderLine -> Injector -> list ShippingLine.

Local Abbreviation handler :=
  (orderConfirmationHandler transformOrderLineAssetUrls hydrateShippingLines).

(** X2: the filter of the handler makes its [setRecipient] safe. For an
    event that the filter lets through, [setRecipient], called on the
    event as [loadData] leaves it, returns the email address of the
    customer of the order; called on any event whose order has no
    customer, it throws. *)
Theorem filter_guards_setRecipient
    (e : OrderStateTransitionEvent RequestContext OrderLine) (inj : Injector) :
  forallb (fun f => f e) (filterFns handler) = true ->
  (exists c,
     customer (order e) = Some c
     /\ setRecipientFn handler
          {| event := (loadDataFn handler e inj).1; data := (loadDataFn handler e inj).2 |}
        = Return (emailAddress c))
  /\ (forall e' : EventWithAsyncData RequestContext OrderLine ShippingLine,
        customer (order (event e')) = None ->
        setRecipientFn handler e' = Throw TypeError).
Proof.
  intros Hfilter. split.
  - simpl in Hfilter. rewrite andb_true_r, andb_true_iff, bool_decide_eq_true in Hfilter.
    destruct Hfilter as [_ [c Hc]]. exists c. split; [exact Hc |].
    simpl. rewrite Hc. reflexivity.
  - intros e' Hnone. simpl. rewrite Hnone. reflexivity.
Qed.

End recipient_facts.

(** ** Several SKU filters on one query *)

Section filter_chain_facts.

Import Collections CollectionFilterChain.

Variable Rest : Type.

(** The condition that the SKU filter adds to a query on this connection. *)
Local Abbreviation skuCondition qb :=
  {| whereType := WhereAnd;
     condition := if decide (type (options (connection qb)) = "postgres")
                  then "productVariant.sku ILIKE :sku"
                  else "productVariant.sku LIKE :sku" |}.

Lemma apply_unfold (qb : SelectQueryBuilder Rest) (args : SkuFilterArgs) :
  apply qb args
  = {| connection := connection qb;
       wheres := (wheres qb ++ [skuCondition qb])%list;
       parameters := <["sku" := PString ("%" +:+ sku args +:+ "%")]> (parameters qb);
       rest := rest qb |}.
Proof.
  destruct (apply_condition Rest qb args) as (w & -> & ->).
  apply andWhere_one_parameter.
Qed.

(** X4: when the SKU filter is applied several times to one query, every
    application adds the same condition on the one parameter [:sku], and
    each application replaces the binding of [:sku]: in the end all the
    conditions match against the value of the last application, and the
    values of the earlier ones are gone. The connection and the rest of
    the query stay as they were. *)
Theorem repeated_sku_filters_share_one_parameter (filterArgs : list SkuFilterArgs) :
  forall qb : SelectQueryBuilder Rest,
    wheres (applyAll qb filterArgs)
      = (wheres qb ++ replicate (length filterArgs) (skuCondition qb))%list
    /\ parameters (applyAll qb filterArgs)
       = match last filterArgs with
         | Some args => <["sku" := PString ("%" +:+ sku args +:+ "%")]> (parameters qb)
         | None => parameters qb
         end
    /\ connection (applyAll qb filterArgs) = connection qb
    /\ rest (applyAll qb filterArgs) = rest qb.
Proof.
  unfold applyAll.
  induction filterArgs as [| args filterArgs IH]; intros qb.
  - simpl. rewrite app_nil_r. auto.
  - cbn [foldl]. destruct (IH (apply qb args)) as (Hw & Hp & Hc & Hr).
    rewrite Hw, Hp, Hc, Hr, apply_unfold. cbn [connection wheres parameters rest length replicate].
    repeat split.
    + rewrite <- app_assoc. reflexivity.
    + destruct filterArgs as [| args' more]; [reflexivity |].
      change (last (args :: args' :: more)) with (last (args' :: more)).
      destruct (last (args' :: more)) eqn:Hlast.
      * apply insert_insert_eq.
      * apply last_None in Hlast. discriminate.
Qed.

End filter_chain_facts.

(** ** A middleware that always calls next *)

Section middleware_facts.

Import Middleware.

Variables Request Response : Type.

Lemma runChain_app (pre post : list (RequestHandler Request Response)) (req : Request) :
  runChain (pre ++ post) req
  = match runChain pre req with
    | (console, Next) =>
        let '(console', control) := runChain post req in
        ((console ++ console')%list, control)
    | (console, Ended res) => (console, Ended res)
    end.
Proof.
  induction pre as [| handler pre IH]; simpl.
  - destruct (runChain post req). reflexivity.
  - destruct (handler req) as [console [| res]]; [| reflexivity].
    rewrite IH. destruct (runChain pre req) as [console1 [| res]]; [| reflexivity].
    destruct (runChain post req) as [console2 control].
    rewrite app_assoc. reflexivity.
Qed.

(** X9: [myMiddleware] never ends a request. Wherever it stands in a chain
    of handlers, the request is answered as it is without it; the console
    gets the one line ["Request received!"], after the lines of the handlers
    before it and before the lines of the handlers after it, if the request
    gets that far, and nothing otherwise. *)
Theorem myMiddleware_is_transparent
    (pre post : list (RequestHandler Request Response)) (req : Request) :
  (runChain (pre ++ myMiddleware :: post) req).2 = (runChain (pre ++ post) req).2
  /\ (runChain (pre ++ myMiddleware :: post) req).1
     = match runChain pre req with
       | (console, Next) =>
           (console ++ "Request received!" :: (runChain post req).1)%list
       | (console, Ended _) => console
       end.
Proof.
  rewrite !runChain_app. cbn [runChain myMiddleware].
  destruct (runChain pre req) as [console [| res]]; [| split; reflexivity].
  destruct (runChain post req) as [console' control]. split; reflexivity.
Qed.

End middleware_facts.

(** ** The further properties at concrete inputs *)

Section more_examples.

Import Examples.

(** The example component of the hook's documentation: its effect sets the
    title and the two-level breadcrumb of an empty page. *)
Lemma setter_calls_emit_in_call_order_witness :
  exists store',
    PageMetadataCalls.calls (PageMetadata.usePageMetadata true)
      PageMetadataCalls.MyComponent_effect
      {| PageMetadata.title_ := []; PageMetadata.breadcrumb_ := [] |} = Return store'
    /\ PageMetadata.title_ store' = ["My Page"]
    /\ PageMetadata.breadcrumb_ store'
       = [[ {| PageMetadataCalls.link := ["./parent"];
               PageMetadataCalls.label := "Parent Page" |};
            {| PageMetadataCalls.link := ["./"];
               PageMetadataCalls.label := "This Page" |} ]].
Proof.
  exact (proj1 (setter_calls_emit_in_call_order _
                  PageMetadataCalls.MyComponent_effect
                  {| PageMetadata.title_ := []; PageMetadata.breadcrumb_ := [] |})).
Defined.

(** The filter lets [settled] through, and the recipient is its customer. *)
Lemma filter_guards_setRecipient_witness :
  exists c,
    Email.customer (Email.order settled) = Some c
    /\ Email.setRecipientFn
         (@Email.orderConfirmationHandler unit unit string string
            (fun _ o _ => Email.lines o) (fun _ _ _ => ["express"]))
         {| Email.event := settled; Email.data := {| Email.shippingLines := ["express"] |} |}
       = Return (Email.emailAddress c).
Proof.
  apply (filter_guards_setRecipient unit unit string string
           (fun _ o _ => Email.lines o) (fun _ _ _ => ["express"]) settled tt).
  reflexivity.
Defined.

End more_examples.
